(** * ServiceCoordinatorClient: a shallow embedding and its properties

    Source: [src/service_coordinator/service_coordinator_client.py].

    The client wraps four unary RPCs of the Service Coordinator.  The
    embedding keeps the shape of the Python code: a mutable world (the
    client object, the sequence of RPC invocations made so far, the log
    records emitted), a state-and-exception monad for method bodies, the
    [raise] statement and the [try]/[except] block of Python, dictionaries in
    insertion order, and the protobuf messages as records. *)

From Stdlib Require Import String Ascii List ZArith Lia Bool DecimalString.
Import ListNotations.
Open Scope string_scope.
Set Warnings "-register-all".

(* ================================================================== *)
(** ** The Python fragment used by the client *)
(* ================================================================== *)

Module Py.

(** Exception classes that occur in the client.  [RpcError] is
    [grpc.RpcError]; like [TypeError] it derives from [Exception]. *)
Inductive ExcClass : Type :=
| BaseException
| Exception
| TypeError
| RpcError.

Definition ExcClass_eqb (c d : ExcClass) : bool :=
  match c, d with
  | BaseException, BaseException => true
  | Exception, Exception => true
  | TypeError, TypeError => true
  | RpcError, RpcError => true
  | _, _ => false
  end.

(** [issubclass c d]: class [c] is [d] or derives from it. *)
Definition issubclass (c d : ExcClass) : bool :=
  match d with
  | BaseException => true
  | Exception =>
      match c with
      | BaseException => false
      | _ => true
      end
  | _ => ExcClass_eqb c d
  end.

(** An exception instance: its class, the text of [str(e)], and the two
    chaining attributes [__cause__] (set by [raise ... from]) and
    [__context__] (the exception that was being handled). *)
Inductive exn : Type :=
| MkExn (cls : ExcClass) (text : string)
        (cause : option exn) (context : option exn).

Definition exn_class (e : exn) : ExcClass :=
  match e with MkExn c _ _ _ => c end.
Definition exn_str (e : exn) : string :=
  match e with MkExn _ t _ _ => t end.
Definition exn_cause (e : exn) : option exn :=
  match e with MkExn _ _ c _ => c end.
Definition exn_context (e : exn) : option exn :=
  match e with MkExn _ _ _ c => c end.

Definition isinstance_exn (e : exn) (c : ExcClass) : bool :=
  issubclass (exn_class e) c.

(** The operand of a [raise] statement, as far as the client needs it:
    an exception instance, or a [str] object. *)
Inductive raisable : Type :=
| OfExn (e : exn)
| OfStr (s : string).

(** [raise operand from cause], executed while [handling] is the
    exception being handled (if any).  A [from] clause sets [__cause__];
    the exception being handled becomes [__context__]; without them the
    operand keeps what it had.  An operand that is not an exception yields
    a [TypeError] instead: the operand is checked before the [from] clause
    is looked at, so that [TypeError] has no [__cause__], and the handled
    exception is its [__context__]. *)
Definition raise_stmt (operand : raisable) (from : option exn)
           (handling : option exn) : exn :=
  match operand with
  | OfExn (MkExn c t cause0 context0) =>
      MkExn c t
            (match from with Some x => Some x | None => cause0 end)
            (match handling with Some h => Some h | None => context0 end)
  | OfStr _ =>
      MkExn TypeError "exceptions must derive from BaseException"
            None handling
  end.

(** [Exception(msg)] *)
Definition new_Exception (msg : string) : exn :=
  MkExn Exception msg None None.

(** ['sep'.join(parts)] *)
Fixpoint join (sep : string) (parts : list string) : string :=
  match parts with
  | [] => ""
  | [p] => p
  | p :: rest => p ++ sep ++ join sep rest
  end.

Definition nl : string := String (ascii_of_nat 10) EmptyString.

(** [str(n)] for an [int]. *)
Definition str_of_int (n : Z) : string :=
  NilZero.string_of_int (Z.to_int n).

(** *** Dictionaries with string keys and values, in insertion order *)

Definition dict : Type := list (string * string).

Definition empty_dict : dict := [].

(** [d[k] = v]: an existing key keeps its position and gets the new
    value; a new key is appended. *)
Fixpoint dict_setitem (d : dict) (k v : string) : dict :=
  match d with
  | [] => [(k, v)]
  | (k', v') :: rest =>
      if String.eqb k' k then (k', v) :: rest
      else (k', v') :: dict_setitem rest k v
  end.

(** [d.get(k)] *)
Fixpoint dict_get (d : dict) (k : string) : option string :=
  match d with
  | [] => None
  | (k', v') :: rest =>
      if String.eqb k' k then Some v' else dict_get rest k
  end.

(** [d.items()] *)
Definition items (d : dict) : list (string * string) := d.

(** The keys of a dictionary are pairwise distinct. *)
Definition dict_wf (d : dict) : Prop := NoDup (map fst d).

(** Values a caller may pass where the signature announces
    [Dict[str, str]]: such a dictionary, or an object that is not a
    dictionary at all. *)
Inductive value : Type :=
| VNone
| VStr (s : string)
| VInt (n : Z)
| VList (l : list (string * string))
| VDict (d : dict).

Definition isinstance_dict (v : value) : bool :=
  match v with
  | VDict _ => true
  | _ => false
  end.

End Py.

(* ================================================================== *)
(** ** Messages of [service_coordinator_pb2] *)
(* ================================================================== *)

Module service_coordinator_pb2.

Record Arg : Type := { key : string; value : string }.

(** The [response] field of every reply: [code] and [message]. *)
Record Status : Type := { code : Z; message : string }.

Record InformPreviousServiceInfoRequest : Type := {
  prev_taskId : string;
  preServiceName : string;
  preServiceIp : string;
  preServicePort : string;
  prev_args : list Arg
}.

Record InformPreviousServiceInfoResponse : Type := {
  prev_response : Status
}.

Record InformCurrentServiceInfoRequest : Type := {
  cur_taskId : string;
  cur_args : list Arg
}.

Record InformCurrentServiceInfoResponse : Type := {
  cur_response : Status;
  cur_out_args : list Arg
}.

Record StartRequest : Type := { start_taskId : string }.
Record StartResponse : Type := { start_response : Status }.

Record StopRequest : Type := { stop_taskId : string }.
Record StopResponse : Type := { stop_response : Status }.

(** [request.args.add()] followed by the two field assignments. *)
Definition add_arg (args : list Arg) (k v : string) : list Arg :=
  args ++ [{| key := k; value := v |}].

End service_coordinator_pb2.

(* ================================================================== *)
(** ** The RPC substrate: [service_coordinator_pb2_grpc.CommunicateStub] *)
(* ================================================================== *)

Module service_coordinator_pb2_grpc.
Import service_coordinator_pb2.

(** One invocation of a remote method, with the request it carried. *)
Inductive RpcCall : Type :=
| CallInformPrevious (req : InformPreviousServiceInfoRequest)
| CallInformCurrent (req : InformCurrentServiceInfoRequest)
| CallStart (req : StartRequest)
| CallStop (req : StopRequest).

(** What a blocking unary call does: it returns the reply, or it raises
    (a [grpc.RpcError] when the transport fails). *)
Inductive outcome (R : Type) : Type :=
| Responded (r : R)
| Failed (e : Py.exn).
Arguments Responded {R} r.
Arguments Failed {R} e.

(** The behaviour behind the stub.  The coordinator is a remote, stateful
    process, so each method may depend on the invocations made before. *)
Record CommunicateStub : Type := {
  informPreviousServiceInfo :
    list RpcCall -> InformPreviousServiceInfoRequest ->
    outcome InformPreviousServiceInfoResponse;
  informCurrentServiceInfo :
    list RpcCall -> InformCurrentServiceInfoRequest ->
    outcome InformCurrentServiceInfoResponse;
  start :
    list RpcCall -> StartRequest -> outcome StartResponse;
  stop :
    list RpcCall -> StopRequest -> outcome StopResponse
}.

End service_coordinator_pb2_grpc.

(* ================================================================== *)
(** ** The world and the monad of method bodies *)
(* ================================================================== *)

Module Import Runtime.
Import service_coordinator_pb2 service_coordinator_pb2_grpc.

(** The attributes [__init__] stores on the object. *)
Record ServiceCoordinatorClient : Type := {
  name : string;
  ip : string;
  port : Z;
  conn : string;               (* target of [grpc.insecure_channel] *)
  client : CommunicateStub
}.

Record World : Type := {
  self : ServiceCoordinatorClient;
  invoked : list RpcCall;      (* RPC invocations, oldest first *)
  logged : list string         (* [logging.info] records, oldest first *)
}.

Inductive result (A : Type) : Type :=
| Return (a : A)
| Raise (e : Py.exn).
Arguments Return {A} a.
Arguments Raise {A} e.

Definition M (A : Type) : Type := World -> result A * World.

Definition ret {A} (a : A) : M A := fun w => (Return a, w).

Definition bind {A B} (c : M A) (k : A -> M B) : M B :=
  fun w =>
    match c w with
    | (Return a, w') => k a w'
    | (Raise e, w') => (Raise e, w')
    end.

Definition get_self : M ServiceCoordinatorClient :=
  fun w => (Return (self w), w).

(** [raise operand from cause] inside a method body.  [handling] is the
    exception of the enclosing [except] clause; in a [try] body it is
    [None], the caller being taken not to be handling an exception of its
    own. *)
Definition raise_ {A} (operand : Py.raisable) (from : option Py.exn)
           (handling : option Py.exn) : M A :=
  fun w => (Raise (Py.raise_stmt operand from handling), w).

(** [try: body except cls as e: handler e] *)
Definition try_except {A} (body : M A) (cls : Py.ExcClass)
           (handler : Py.exn -> M A) : M A :=
  fun w =>
    match body w with
    | (Return a, w') => (Return a, w')
    | (Raise e, w') =>
        if Py.isinstance_exn e cls then handler e w' else (Raise e, w')
    end.

(** [logging.info(msg)] *)
Definition logging_info (msg : string) : M unit :=
  fun w =>
    (Return tt,
     {| self := self w; invoked := invoked w;
        logged := logged w ++ [msg] |}).

(** A call through the stub: the invocation is made (and recorded), then
    the reply is returned or the substrate's exception is raised. *)
Definition invoke {R} (call : RpcCall)
           (method : list RpcCall -> outcome R) : M R :=
  fun w =>
    let w' := {| self := self w; invoked := invoked w ++ [call];
                 logged := logged w |} in
    match method (invoked w) with
    | Responded r => (Return r, w')
    | Failed e => (Raise e, w')
    end.

End Runtime.

Notation "x <- c ;; k" := (bind c (fun x => k))
  (at level 61, c at next level, right associativity).
Notation "c ;;; k" := (bind c (fun _ => k))
  (at level 61, right associativity).

(* ================================================================== *)
(** ** The client: [ServiceCoordinatorClient] *)
(* ================================================================== *)

Module service_coordinator_client.
Import service_coordinator_pb2 service_coordinator_pb2_grpc.

(** [__init__(self, name, ip, port)].  [remote] is the behaviour reachable
    through the channel; the constructor opens the channel and emits one
    log record. *)
Definition init (remote : CommunicateStub) (name ip : string) (port : Z)
  : World :=
  {| self := {| name := name; ip := ip; port := port;
                conn := ip ++ ":" ++ Py.str_of_int port;
                client := remote |};
     invoked := [];
     logged := ["Service Coordinator client initialized."] |}.

(** The default of the [args] parameter, [{}].  No method writes to its
    [args], so the shared default object stays empty. *)
Definition default_args : Py.value := Py.VDict Py.empty_dict.

Definition args_or_default (args : option Py.value) : Py.value :=
  match args with
  | Some v => v
  | None => default_args
  end.

(** [if isinstance(args, dict): for key, value in args.items(): ...]:
    the request's [args] after the conditional loop. *)
Definition fill_args (request_args : list Arg) (args : Py.value)
  : list Arg :=
  match args with
  | Py.VDict d =>
      fold_left (fun acc kv => add_arg acc (fst kv) (snd kv))
                (Py.items d) request_args
  | _ => request_args
  end.

(** [for arg in response.args: args_output[arg.key] = arg.value],
    starting from [args_output]. *)
Definition collect_args (args_output : Py.dict) (response_args : list Arg)
  : Py.dict :=
  fold_left (fun d a => Py.dict_setitem d (key a) (value a))
            response_args args_output.

(** The three lines that describe the stage itself. *)
Definition current_service_lines (me : ServiceCoordinatorClient)
  : list string :=
  [ "Current Service Info:";
    "   name: " ++ name me;
    "   ip:   " ++ ip me;
    "   port: " ++ Py.str_of_int (port me) ].

Definition inform_previous_failure (me : ServiceCoordinatorClient)
  (task_id pre_service_name pre_service_ip pre_service_port : string)
  (server_message : string) : string :=
  Py.join Py.nl
    ([ "Failed to inform previous service info";
       "Task ID: " ++ task_id;
       "Previous Service Info:";
       "   name: " ++ pre_service_name;
       "   ip:   " ++ pre_service_ip;
       "   port: " ++ pre_service_port ]
     ++ current_service_lines me
     ++ [ "Error:"; server_message ]).

Definition simple_failure (headline : string)
  (me : ServiceCoordinatorClient) (task_id server_message : string)
  : string :=
  Py.join Py.nl
    ([ headline; "Task ID: " ++ task_id ]
     ++ current_service_lines me
     ++ [ "Error:"; server_message ]).

(** The handler of every method: [raise(f'gRPC error in <method>: \n{e}')
    from e].  The operand of [raise] is the formatted [str]. *)
Definition on_rpc_error {A} (method : string) (e : Py.exn) : M A :=
  raise_ (Py.OfStr ("gRPC error in " ++ method ++ ": " ++ Py.nl
                    ++ Py.exn_str e))
         (Some e) (Some e).

Definition inform_previous_service_info
  (task_id pre_service_name pre_service_ip pre_service_port : string)
  (args : option Py.value) : M Py.value :=
  let args := args_or_default args in
  try_except
    (me <- get_self ;;
     let request :=
       {| prev_taskId := task_id;
          preServiceName := pre_service_name;
          preServiceIp := pre_service_ip;
          preServicePort := pre_service_port;
          prev_args := fill_args [] args |} in
     response <- invoke (CallInformPrevious request)
                   (fun h => informPreviousServiceInfo (client me) h request) ;;
     (if negb (code (prev_response response) =? 200)%Z
      then raise_ (Py.OfExn (Py.new_Exception
                     (inform_previous_failure me task_id pre_service_name
                        pre_service_ip pre_service_port
                        (message (prev_response response)))))
                  None None
      else ret tt) ;;;
     logging_info
       ("Successfully informed previous service info, Task ID: " ++ task_id) ;;;
     ret Py.VNone)
    Py.RpcError
    (on_rpc_error "inform_previous_service_info").

Definition inform_current_service_info
  (task_id : string) (args : option Py.value) : M Py.value :=
  let args := args_or_default args in
  try_except
    (me <- get_self ;;
     let request :=
       {| cur_taskId := task_id; cur_args := fill_args [] args |} in
     response <- invoke (CallInformCurrent request)
                   (fun h => informCurrentServiceInfo (client me) h request) ;;
     (if negb (code (cur_response response) =? 200)%Z
      then raise_ (Py.OfExn (Py.new_Exception
                     (simple_failure "Failed to inform current service info"
                        me task_id (message (cur_response response)))))
                  None None
      else ret tt) ;;;
     let args_output := collect_args Py.empty_dict (cur_out_args response) in
     logging_info
       ("Successfully informed current service info, Task ID: " ++ task_id) ;;;
     ret (Py.VDict args_output))
    Py.RpcError
    (on_rpc_error "inform_current_service_info").

Definition start (task_id : string) : M Py.value :=
  try_except
    (me <- get_self ;;
     let request := {| start_taskId := task_id |} in
     response <- invoke (CallStart request)
                   (fun h => service_coordinator_pb2_grpc.start (client me) h request) ;;
     (if negb (code (start_response response) =? 200)%Z
      then raise_ (Py.OfExn (Py.new_Exception
                     (simple_failure "Failed to start the service"
                        me task_id (message (start_response response)))))
                  None None
      else ret tt) ;;;
     logging_info ("Successfully started task, Task ID: " ++ task_id) ;;;
     ret Py.VNone)
    Py.RpcError
    (on_rpc_error "start").

Definition stop (task_id : string) : M Py.value :=
  try_except
    (me <- get_self ;;
     let request := {| stop_taskId := task_id |} in
     response <- invoke (CallStop request)
                   (fun h => service_coordinator_pb2_grpc.stop (client me) h request) ;;
     (if negb (code (stop_response response) =? 200)%Z
      then raise_ (Py.OfExn (Py.new_Exception
                     (simple_failure "Failed to stop the service"
                        me task_id (message (stop_response response)))))
                  None None
      else ret tt) ;;;
     logging_info ("Successfully stopped task, Task ID: " ++ task_id) ;;;
     ret Py.VNone)
    Py.RpcError
    (on_rpc_error "stop").

End service_coordinator_client.

(* ================================================================== *)
(** ** The four operations, uniformly *)
(* ================================================================== *)

Module Import Operations.
Import service_coordinator_pb2 service_coordinator_pb2_grpc.
Import service_coordinator_client.

(** A method call on the client, with its actual parameters.  [args] is
    [None] when the caller omits the parameter. *)
Inductive operation : Type :=
| OpInformPrevious
    (task_id pre_service_name pre_service_ip pre_service_port : string)
    (args : option Py.value)
| OpInformCurrent (task_id : string) (args : option Py.value)
| OpStart (task_id : string)
| OpStop (task_id : string).

Definition perform (op : operation) : M Py.value :=
  match op with
  | OpInformPrevious t pn pi pp a => inform_previous_service_info t pn pi pp a
  | OpInformCurrent t a => inform_current_service_info t a
  | OpStart t => service_coordinator_client.start t
  | OpStop t => service_coordinator_client.stop t
  end.

(** The invocation an operation hands to the stub. *)
Definition request_of (op : operation) : RpcCall :=
  match op with
  | OpInformPrevious t pn pi pp a =>
      CallInformPrevious
        {| prev_taskId := t; preServiceName := pn; preServiceIp := pi;
           preServicePort := pp;
           prev_args := fill_args [] (args_or_default a) |}
  | OpInformCurrent t a =>
      CallInformCurrent
        {| cur_taskId := t; cur_args := fill_args [] (args_or_default a) |}
  | OpStart t => CallStart {| start_taskId := t |}
  | OpStop t => CallStop {| stop_taskId := t |}
  end.

(** What the substrate does with an invocation made in world [w]: the
    [response] status of the reply, or the exception it raises. *)
Definition substrate (w : World) (c : RpcCall) : outcome Status :=
  let stub := client (self w) in
  match c with
  | CallInformPrevious req =>
      match informPreviousServiceInfo stub (invoked w) req with
      | Responded r => Responded (prev_response r)
      | Failed e => Failed e
      end
  | CallInformCurrent req =>
      match informCurrentServiceInfo stub (invoked w) req with
      | Responded r => Responded (cur_response r)
      | Failed e => Failed e
      end
  | CallStart req =>
      match service_coordinator_pb2_grpc.start stub (invoked w) req with
      | Responded r => Responded (start_response r)
      | Failed e => Failed e
      end
  | CallStop req =>
      match service_coordinator_pb2_grpc.stop stub (invoked w) req with
      | Responded r => Responded (stop_response r)
      | Failed e => Failed e
      end
  end.

(** The caller-supplied strings that identify the failing hop. *)
Definition task_of (op : operation) : string :=
  match op with
  | OpInformPrevious t _ _ _ _ => t
  | OpInformCurrent t _ => t
  | OpStart t => t
  | OpStop t => t
  end.

Definition predecessor_of (op : operation) : list string :=
  match op with
  | OpInformPrevious _ pn pi pp _ => [pn; pi; pp]
  | _ => []
  end.

(** [sub] occurs in [s] as a contiguous piece. *)
Definition embeds (sub s : string) : Prop :=
  exists pre post, s = pre ++ sub ++ post.

(** The value a sequence of pairs gives to [k] when later pairs win. *)
Fixpoint last_binding (l : list Arg) (k : string) : option string :=
  match l with
  | [] => None
  | a :: rest =>
      match last_binding rest k with
      | Some v => Some v
      | None => if String.eqb (key a) k then Some (value a) else None
      end
  end.

(** The dictionary a call returned, if it returned one. *)
Definition returned_map (r : result Py.value) : option Py.dict :=
  match r with
  | Return (Py.VDict d) => Some d
  | _ => None
  end.

(** A coordinator that answers every call with the same status and the same
    injected pairs. *)
Definition constant_coordinator (st : Status) (out : list Arg)
  : CommunicateStub :=
  {| informPreviousServiceInfo := fun _ _ =>
       Responded {| prev_response := st |};
     informCurrentServiceInfo := fun _ _ =>
       Responded {| cur_response := st; cur_out_args := out |};
     service_coordinator_pb2_grpc.start := fun _ _ =>
       Responded {| start_response := st |};
     service_coordinator_pb2_grpc.stop := fun _ _ =>
       Responded {| stop_response := st |} |}.

(** A substrate on which every call fails with the given exception. *)
Definition unreachable_coordinator (e : Py.exn) : CommunicateStub :=
  {| informPreviousServiceInfo := fun _ _ => Failed e;
     informCurrentServiceInfo := fun _ _ => Failed e;
     service_coordinator_pb2_grpc.start := fun _ _ => Failed e;
     service_coordinator_pb2_grpc.stop := fun _ _ => Failed e |}.

(** The same call with another actual [args] (the methods without an
    [args] parameter are left as they are). *)
Definition with_args (op : operation) (a : option Py.value) : operation :=
  match op with
  | OpInformPrevious t pn pi pp _ => OpInformPrevious t pn pi pp a
  | OpInformCurrent t _ => OpInformCurrent t a
  | OpStart t => OpStart t
  | OpStop t => OpStop t
  end.

(** The [args] sequence of a request. *)
Definition sent_args (c : RpcCall) : list Arg :=
  match c with
  | CallInformPrevious req => prev_args req
  | CallInformCurrent req => cur_args req
  | CallStart _ => []
  | CallStop _ => []
  end.

(** Sample worlds: stage B at 10.0.0.2:9001, in front of a coordinator
    that rejects, accepts, or cannot be reached. *)
Definition conflict : Status := {| code := 409; message := "CONFLICT" |}.
Definition ok : Status := {| code := 200; message := "OK" |}.

Definition injected : list Arg :=
  [ {| key := "a"; value := "1" |};
    {| key := "b"; value := "2" |};
    {| key := "a"; value := "3" |} ].

Definition rejecting_world : World :=
  init (constant_coordinator conflict []) "B" "10.0.0.2" 9001.

Definition accepting_world : World :=
  init (constant_coordinator ok injected) "B" "10.0.0.2" 9001.

Definition unavailable : Py.exn :=
  Py.MkExn Py.RpcError "StatusCode.UNAVAILABLE" None None.

Definition unreachable_world : World :=
  init (unreachable_coordinator unavailable) "B" "10.0.0.2" 9001.

(** The world after a sequence of calls, whatever each of them returned or
    raised (the caller catches and goes on). *)
Definition perform_all (ops : list operation) (w : World) : World :=
  fold_left (fun w' op => snd (perform op w')) ops w.

End Operations.

(* ================================================================== *)
(** ** Vocabulary for the wire sequence and the returned dictionary *)
(* ================================================================== *)

Module Import Observations.
Import service_coordinator_pb2 service_coordinator_pb2_grpc.

(** The pair [request.args.add()] produces for one dictionary entry, and
    the entry a pair stands for. *)
Definition arg_of_item (kv : string * string) : Arg :=
  {| key := fst kv; value := snd kv |}.

Definition item_of_arg (a : Arg) : string * string := (key a, value a).

(** The keys of a sequence in the order in which each is first met. *)
Definition remember (seen : list string) (k : string) : list string :=
  if existsb (String.eqb k) seen then seen else seen ++ [k].

Definition first_occurrences (keys : list string) : list string :=
  fold_left remember keys [].

(** An exception of the substrate that is not a [grpc.RpcError]. *)
Definition serialization_error : Py.exn :=
  Py.MkExn Py.TypeError "bad argument type for built-in operation" None None.

End Observations.

(** *** Proof steps shared by the statements about method bodies *)

Ltac unfold_methods :=
  unfold perform, service_coordinator_client.inform_previous_service_info,
    service_coordinator_client.inform_current_service_info,
    service_coordinator_client.start, service_coordinator_client.stop,
    service_coordinator_client.on_rpc_error,
    try_except, bind, invoke, get_self, raise_, ret, logging_info.

(** Splits on what the stub does with the request of the goal. *)
Ltac case_stub :=
  match goal with
  | |- context [service_coordinator_pb2_grpc.informPreviousServiceInfo ?s ?h ?r] =>
      destruct (service_coordinator_pb2_grpc.informPreviousServiceInfo s h r)
        as [[[? ?]] | ?] eqn:?
  | |- context [service_coordinator_pb2_grpc.informCurrentServiceInfo ?s ?h ?r] =>
      destruct (service_coordinator_pb2_grpc.informCurrentServiceInfo s h r)
        as [[[? ?] ?] | ?] eqn:?
  | |- context [service_coordinator_pb2_grpc.start ?s ?h ?r] =>
      destruct (service_coordinator_pb2_grpc.start s h r)
        as [[[? ?]] | ?] eqn:?
  | |- context [service_coordinator_pb2_grpc.stop ?s ?h ?r] =>
      destruct (service_coordinator_pb2_grpc.stop s h r)
        as [[[? ?]] | ?] eqn:?
  end.

(* ================================================================== *)
(** ** Auxiliary facts: strings, dictionaries, the monad *)
(* ================================================================== *)

Section StringFacts.

Lemma append_assoc_s (a b c : string) : (a ++ b) ++ c = a ++ b ++ c.
Proof.
  induction a as [| ch a IH]; cbn; [reflexivity | now rewrite IH].
Qed.

Lemma append_empty_r (a : string) : a ++ "" = a.
Proof.
  induction a as [| ch a IH]; cbn; [reflexivity | now rewrite IH].
Qed.

Lemma embeds_refl (s : string) : embeds s s.
Proof. exists "", "". cbn. now rewrite append_empty_r. Qed.

Lemma embeds_after (p sub s : string) : embeds sub s -> embeds sub (p ++ s).
Proof.
  intros (pre & post & ->). exists (p ++ pre), post.
  now rewrite append_assoc_s.
Qed.

Lemma embeds_before (p sub s : string) : embeds sub s -> embeds sub (s ++ p).
Proof.
  intros (pre & post & ->). exists pre, (post ++ p).
  now rewrite !append_assoc_s.
Qed.

Lemma embeds_trans (a b c : string) : embeds a b -> embeds b c -> embeds a c.
Proof.
  intros Hab (pre & post & ->).
  apply embeds_after, embeds_before, Hab.
Qed.

Lemma embeds_join (sep p : string) (parts : list string) :
  In p parts -> embeds p (Py.join sep parts).
Proof.
  induction parts as [| q parts IH]; intros Hin; [destruct Hin |].
  destruct Hin as [-> | Hin].
  - destruct parts as [| q' parts']; cbn -[append].
    + apply embeds_refl.
    + apply embeds_before, embeds_refl.
  - destruct parts as [| q' parts']; [destruct Hin |].
    change (Py.join sep (q :: q' :: parts'))
      with (q ++ sep ++ Py.join sep (q' :: parts')).
    apply embeds_after, embeds_after, IH, Hin.
Qed.

(** A labelled line [label ++ x] of a joined message carries [x]. *)
Lemma embeds_labelled (sep label x : string) (parts : list string) :
  In (label ++ x) parts -> embeds x (Py.join sep parts).
Proof.
  intros Hin. apply embeds_trans with (label ++ x).
  - apply embeds_after, embeds_refl.
  - now apply embeds_join.
Qed.

End StringFacts.

Section DictFacts.
Import service_coordinator_pb2 service_coordinator_client.
Local Open Scope list_scope.

Lemma dict_get_setitem (d : Py.dict) (k v k' : string) :
  Py.dict_get (Py.dict_setitem d k v) k' =
  if String.eqb k k' then Some v else Py.dict_get d k'.
Proof.
  induction d as [| [k0 v0] d IH]; cbn.
  - reflexivity.
  - destruct (String.eqb k0 k) eqn:E0; cbn.
    + apply String.eqb_eq in E0. subst k0.
      destruct (String.eqb k k'); reflexivity.
    + destruct (String.eqb k0 k') eqn:E1.
      * apply String.eqb_eq in E1. subst k'.
        rewrite String.eqb_sym, E0. reflexivity.
      * apply IH.
Qed.

Lemma dict_setitem_fresh (d : Py.dict) (k v : string) :
  ~ In k (map fst d) -> Py.dict_setitem d k v = d ++ [(k, v)].
Proof.
  induction d as [| [k0 v0] d IH]; cbn; intros Hfresh.
  - reflexivity.
  - destruct (String.eqb k0 k) eqn:E0.
    + apply String.eqb_eq in E0. tauto.
    + rewrite IH by tauto. reflexivity.
Qed.

Lemma fill_args_dict (acc : list Arg) (d : Py.dict) :
  fill_args acc (Py.VDict d) =
  acc ++ map (fun kv => {| key := fst kv; value := snd kv |}) d.
Proof.
  unfold fill_args, Py.items. revert acc.
  induction d as [| kv d IH]; intros acc; cbn.
  - now rewrite app_nil_r.
  - rewrite IH. unfold add_arg. now rewrite <- app_assoc.
Qed.

Lemma collect_args_fresh (d acc : Py.dict) :
  NoDup (map fst (acc ++ d)) ->
  collect_args acc (map (fun kv => {| key := fst kv; value := snd kv |}) d)
  = acc ++ d.
Proof.
  unfold collect_args. revert acc.
  induction d as [| [k v] d IH]; intros acc Hnd; cbn.
  - now rewrite app_nil_r.
  - assert (Hfresh : ~ In k (map fst acc)).
    { rewrite map_app in Hnd. cbn in Hnd.
      apply NoDup_remove_2 in Hnd. intros Hin. apply Hnd.
      apply in_or_app. now left. }
    rewrite dict_setitem_fresh by exact Hfresh.
    rewrite IH; rewrite <- app_assoc; cbn; [reflexivity | exact Hnd].
Qed.

Lemma dict_get_collect_args (l : list Arg) (acc : Py.dict) (k : string) :
  Py.dict_get (collect_args acc l) k =
  match last_binding l k with
  | Some v => Some v
  | None => Py.dict_get acc k
  end.
Proof.
  unfold collect_args. revert acc.
  induction l as [| a l IH]; intros acc; cbn.
  - reflexivity.
  - rewrite IH, dict_get_setitem.
    destruct (last_binding l k); [reflexivity |].
    destruct (String.eqb (key a) k); reflexivity.
Qed.

Lemma last_binding_app (l1 l2 : list Arg) (k : string) :
  last_binding (l1 ++ l2) k =
  match last_binding l2 k with
  | Some v => Some v
  | None => last_binding l1 k
  end.
Proof.
  induction l1 as [| a l1 IH]; cbn.
  - destruct (last_binding l2 k); reflexivity.
  - rewrite IH. destruct (last_binding l2 k); reflexivity.
Qed.

Lemma last_binding_absent (l : list Arg) (k : string) :
  (forall q, In q l -> key q <> k) -> last_binding l k = None.
Proof.
  induction l as [| a l IH]; cbn; intros Hno; [reflexivity |].
  rewrite IH by (intros q Hq; apply Hno; now right).
  destruct (String.eqb (key a) k) eqn:E; [| reflexivity].
  apply String.eqb_eq in E. exfalso. apply (Hno a); [now left | exact E].
Qed.

End DictFacts.

Section RunLemmas.
Import service_coordinator_pb2 service_coordinator_pb2_grpc.
Import service_coordinator_client.
Local Open Scope list_scope.

(** Whatever the substrate does, an operation leaves the world with exactly
    one more invocation and the same client object. *)
Lemma perform_world (op : operation) (w : World) :
  self (snd (perform op w)) = self w /\
  invoked (snd (perform op w)) = invoked w ++ [request_of op].
Proof.
  destruct op; unfold_methods; cbn; case_stub; cbn;
    repeat match goal with
           | |- context [if ?b then _ else _] => destruct b; cbn
           end; split; reflexivity.
Qed.

(** A reply with a status other than 200 makes the operation raise the
    [Exception] built from the failure text. *)
Lemma perform_rejected (op : operation) (w : World) (st : Status) :
  substrate w (request_of op) = Responded st ->
  code st <> 200%Z ->
  exists text,
    fst (perform op w) = Raise (Py.MkExn Py.Exception text None None) /\
    text =
      match op with
      | OpInformPrevious t pn pi pp _ =>
          inform_previous_failure (self w) t pn pi pp (message st)
      | OpInformCurrent t _ =>
          simple_failure "Failed to inform current service info"
            (self w) t (message st)
      | OpStart t =>
          simple_failure "Failed to start the service" (self w) t (message st)
      | OpStop t =>
          simple_failure "Failed to stop the service" (self w) t (message st)
      end.
Proof.
  intros Hreply Hcode. apply Z.eqb_neq in Hcode.
  destruct op; unfold substrate, request_of in Hreply; cbn in Hreply;
    unfold_methods; cbn; case_stub; cbn in *;
    try discriminate Hreply;
    injection Hreply as <-; cbn in Hcode; rewrite Hcode; cbn;
    eexists; split; reflexivity.
Qed.

(** A reply with status 200 makes the operation return. *)
Lemma perform_accepted (op : operation) (w : World) (st : Status) :
  substrate w (request_of op) = Responded st ->
  code st = 200%Z ->
  fst (perform op w) =
    match op with
    | OpInformCurrent t a =>
        match informCurrentServiceInfo (client (self w)) (invoked w)
                {| cur_taskId := t;
                   cur_args := fill_args [] (args_or_default a) |} with
        | Responded r =>
            Return (Py.VDict (collect_args Py.empty_dict (cur_out_args r)))
        | Failed e => Raise e
        end
    | _ => Return Py.VNone
    end.
Proof.
  intros Hreply Hcode. apply Z.eqb_eq in Hcode.
  destruct op; unfold substrate, request_of in Hreply; cbn in Hreply;
    unfold_methods; cbn; case_stub; cbn in *;
    try discriminate Hreply;
    injection Hreply as <-; cbn in Hcode; rewrite Hcode; cbn;
    reflexivity.
Qed.

(** In particular the operation returns some value. *)
Lemma perform_accepted_returns (op : operation) (w : World) (st : Status) :
  substrate w (request_of op) = Responded st ->
  code st = 200%Z ->
  exists v, fst (perform op w) = Return v.
Proof.
  intros Hreply Hcode.
  rewrite (perform_accepted op w st Hreply Hcode).
  destruct op; try (eexists; reflexivity).
  unfold substrate, request_of in Hreply.
  destruct (informCurrentServiceInfo _ _ _); [| discriminate Hreply].
  eexists; reflexivity.
Qed.

(** A transport failure: the handler's [raise] of a [str] produces a
    [TypeError] without [__cause__]. *)
Lemma perform_transport_failure (op : operation) (w : World) (e : Py.exn) :
  substrate w (request_of op) = Failed e ->
  Py.isinstance_exn e Py.RpcError = true ->
  fst (perform op w) =
    Raise (Py.MkExn Py.TypeError "exceptions must derive from BaseException"
             None (Some e)).
Proof.
  intros Hreply Hcls.
  destruct op; unfold substrate, request_of in Hreply; cbn in Hreply;
    unfold_methods; cbn; case_stub; cbn in *;
    try discriminate Hreply;
    injection Hreply as <-; rewrite Hcls; reflexivity.
Qed.

End RunLemmas.

(* ================================================================== *)
(** ** Properties of the client *)
(* ================================================================== *)

Section ClientProperties.
Import service_coordinator_pb2 service_coordinator_pb2_grpc.
Import service_coordinator_client.
Local Open Scope list_scope.

(** C1.  When the reply to any of the four operations carries a status code
    other than 200, the operation raises an [Exception] (not caught by the
    transport handler) whose text contains the task id, the predecessor's
    name, ip and port (for inform-previous), the stage's own name, ip and
    port, and the server's message; when the code is 200 the operation
    returns without raising. *)
Theorem non_200_raises_with_context :
  forall (op : operation) (w : World) (st : Status),
    substrate w (request_of op) = Responded st ->
    (code st <> 200%Z ->
     exists e,
       fst (perform op w) = Raise e /\
       Py.exn_class e = Py.Exception /\
       Py.isinstance_exn e Py.RpcError = false /\
       forall s,
         In s (task_of op :: predecessor_of op ++
               [name (self w); ip (self w); Py.str_of_int (port (self w));
                message st]) ->
         embeds s (Py.exn_str e)) /\
    (code st = 200%Z -> exists v, fst (perform op w) = Return v).
Proof.
  intros op w st Hreply. split; intros Hcode.
  - destruct (perform_rejected op w st Hreply Hcode) as (text & Hrun & ->).
    eexists. split; [exact Hrun |]. split; [reflexivity |].
    split; [reflexivity |].
    intros s Hin. cbn [Py.exn_str].
    destruct op; cbn [task_of predecessor_of app In] in Hin;
      unfold inform_previous_failure, simple_failure, current_service_lines;
      repeat (destruct Hin as [<- | Hin]); try destruct Hin;
      first
        [ apply embeds_join; cbn [app In]; tauto
        | eapply embeds_labelled; cbn [app In];
          first [ left; reflexivity
                | right; left; reflexivity
                | do 2 right; left; reflexivity
                | do 3 right; left; reflexivity
                | do 4 right; left; reflexivity
                | do 5 right; left; reflexivity
                | do 6 right; left; reflexivity
                | do 7 right; left; reflexivity
                | do 8 right; left; reflexivity
                | do 9 right; left; reflexivity ] ].
  - exact (perform_accepted_returns op w st Hreply Hcode).
Qed.

Lemma non_200_raises_with_context_witness :
  (exists e,
     fst (perform (OpInformPrevious "t1" "A" "10.0.0.1" "9000" None)
            rejecting_world) = Raise e /\
     Py.exn_class e = Py.Exception /\
     Py.isinstance_exn e Py.RpcError = false /\
     forall s,
       In s ["t1"; "A"; "10.0.0.1"; "9000"; "B"; "10.0.0.2"; "9001";
             "CONFLICT"] ->
       embeds s (Py.exn_str e)) /\
  (exists v, fst (perform (OpStop "t1") accepting_world) = Return v).
Proof.
  split.
  - apply (proj1 (non_200_raises_with_context
                    (OpInformPrevious "t1" "A" "10.0.0.1" "9000" None)
                    rejecting_world conflict eq_refl)).
    cbn. discriminate.
  - apply (proj2 (non_200_raises_with_context
                    (OpStop "t1") accepting_world ok eq_refl)).
    reflexivity.
Defined.

(** C2 (the code at a failing transport).  With a coordinator that cannot
    be reached, each of the four operations ends in a [TypeError] whose text
    is Python's complaint about the operand of [raise]; its [__cause__] is
    unset and the text of the transport error is not part of it.  The
    [grpc.RpcError] is reachable only as the implicit [__context__]. *)
Theorem transport_failure_ends_in_TypeError :
  Forall
    (fun op =>
       fst (perform op unreachable_world) =
       Raise (Py.MkExn Py.TypeError
                "exceptions must derive from BaseException"
                None (Some unavailable)))
    [ OpInformPrevious "t1" "A" "10.0.0.1" "9000" None;
      OpInformCurrent "t1" (Some (Py.VDict [("version", "1")]));
      OpStart "t1";
      OpStop "t1" ].
Proof.
  repeat constructor;
    apply perform_transport_failure; reflexivity.
Qed.

(** C3.  On a reply with status 200, inform-current returns a dictionary
    that maps every key of the reply's [args] sequence to the value the
    sequence gives it (the last one, should a key repeat), and nothing
    else; inform-previous, start and stop return [None]. *)
Theorem success_results :
  forall (op : operation) (w : World) (st : Status),
    substrate w (request_of op) = Responded st ->
    code st = 200%Z ->
    (forall t a, op = OpInformCurrent t a ->
       exists r d,
         informCurrentServiceInfo (client (self w)) (invoked w)
           {| cur_taskId := t;
              cur_args := fill_args [] (args_or_default a) |}
         = Responded r /\
         fst (perform op w) = Return (Py.VDict d) /\
         d = collect_args Py.empty_dict (cur_out_args r) /\
         forall k, Py.dict_get d k = last_binding (cur_out_args r) k) /\
    ((forall t a, op <> OpInformCurrent t a) ->
       fst (perform op w) = Return Py.VNone).
Proof.
  intros op w st Hreply Hcode.
  pose proof (perform_accepted op w st Hreply Hcode) as Hrun.
  split.
  - intros t a ->. unfold substrate, request_of in Hreply.
    destruct (informCurrentServiceInfo _ _ _) as [r | e] eqn:Hstub;
      [| discriminate Hreply].
    exists r, (collect_args Py.empty_dict (cur_out_args r)).
    repeat split; [exact Hrun |].
    intros k. rewrite dict_get_collect_args.
    destruct (last_binding (cur_out_args r) k); reflexivity.
  - intros Hother. destruct op; try exact Hrun.
    exfalso. eapply Hother. reflexivity.
Qed.

Lemma success_results_witness :
  (exists r d,
     informCurrentServiceInfo (client (self accepting_world))
       (invoked accepting_world)
       {| cur_taskId := "t1";
          cur_args := fill_args []
                        (args_or_default (Some (Py.VDict [("version", "1")])))
       |} = Responded r /\
     fst (perform (OpInformCurrent "t1" (Some (Py.VDict [("version", "1")])))
            accepting_world) = Return (Py.VDict d) /\
     d = collect_args Py.empty_dict (cur_out_args r) /\
     forall k, Py.dict_get d k = last_binding (cur_out_args r) k) /\
  fst (perform (OpStart "t1") accepting_world) = Return Py.VNone.
Proof.
  split.
  - apply (proj1 (success_results
                    (OpInformCurrent "t1" (Some (Py.VDict [("version", "1")])))
                    accepting_world ok eq_refl eq_refl)
             "t1" (Some (Py.VDict [("version", "1")])) eq_refl).
  - apply (proj2 (success_results (OpStart "t1") accepting_world ok
                    eq_refl eq_refl)).
    intros t a. discriminate.
Defined.

(** C4.  The dictionary inform-current returns is a function of the reply
    alone: two calls that receive the same reply return the same
    dictionary, whatever [args] (and task id, and world) each was made
    with; on status 200 it is the reply's pairs collected. *)
Theorem returned_map_depends_on_reply_only :
  forall (w1 w2 : World) (t1 t2 : string) (a1 a2 : option Py.value)
         (r : InformCurrentServiceInfoResponse),
    informCurrentServiceInfo (client (self w1)) (invoked w1)
      {| cur_taskId := t1; cur_args := fill_args [] (args_or_default a1) |}
    = Responded r ->
    informCurrentServiceInfo (client (self w2)) (invoked w2)
      {| cur_taskId := t2; cur_args := fill_args [] (args_or_default a2) |}
    = Responded r ->
    returned_map (fst (inform_current_service_info t1 a1 w1)) =
    returned_map (fst (inform_current_service_info t2 a2 w2)) /\
    (code (cur_response r) = 200%Z ->
     returned_map (fst (inform_current_service_info t1 a1 w1)) =
     Some (collect_args Py.empty_dict (cur_out_args r))).
Proof.
  intros w1 w2 t1 t2 a1 a2 r H1 H2.
  unfold_methods; cbn. rewrite H1, H2. cbn.
  destruct (code (cur_response r) =? 200)%Z eqn:Hc; cbn.
  - split; reflexivity.
  - split; [reflexivity |]. intros Hcode. apply Z.eqb_neq in Hc. contradiction.
Qed.

Lemma returned_map_depends_on_reply_only_witness :
  returned_map
    (fst (inform_current_service_info "t1"
            (Some (Py.VDict [("version", "1")])) accepting_world)) =
  returned_map
    (fst (inform_current_service_info "t2" None
            (snd (perform (OpStart "t0") accepting_world)))) /\
  returned_map
    (fst (inform_current_service_info "t1"
            (Some (Py.VDict [("version", "1")])) accepting_world)) =
  Some [("a", "3"); ("b", "2")].
Proof.
  destruct (returned_map_depends_on_reply_only
              accepting_world (snd (perform (OpStart "t0") accepting_world))
              "t1" "t2" (Some (Py.VDict [("version", "1")])) None
              {| cur_response := ok; cur_out_args := injected |}
              eq_refl eq_refl) as [Hsame Hmap].
  split; [exact Hsame | exact (Hmap eq_refl)].
Defined.

(** C5.  Round trip of the argument codec: filling a request's [args] from
    a dictionary (one pair per entry, in insertion order) and collecting
    that sequence into a fresh dictionary, as inform-current does with a
    reply, gives the dictionary back, entries and order alike. *)
Theorem argument_map_round_trip :
  forall d : Py.dict,
    Py.dict_wf d ->
    collect_args Py.empty_dict (fill_args [] (Py.VDict d)) = d.
Proof.
  intros d Hwf. rewrite fill_args_dict. cbn [app].
  now rewrite collect_args_fresh.
Qed.

Lemma argument_map_round_trip_witness :
  Py.dict_wf [("version", "1"); ("mode", "fast")] /\
  collect_args Py.empty_dict
    (fill_args [] (Py.VDict [("version", "1"); ("mode", "fast")]))
  = [("version", "1"); ("mode", "fast")].
Proof.
  assert (Hwf : Py.dict_wf [("version", "1"); ("mode", "fast")]).
  { unfold Py.dict_wf. cbn. repeat constructor; cbn.
    - intros [H | []]. discriminate H.
    - intros []. }
  split; [exact Hwf |].
  apply (argument_map_round_trip [("version", "1"); ("mode", "fast")] Hwf).
Defined.

(** C6.  No retry: whatever the substrate does (a 200 reply, another
    status, a raised error), one call of an operation adds exactly one
    invocation to the sequence of RPC invocations, the one carrying the
    operation's request. *)
Theorem exactly_one_invocation :
  forall (op : operation) (w : World),
    invoked (snd (perform op w)) = invoked w ++ [request_of op] /\
    length (invoked (snd (perform op w))) = S (length (invoked w)).
Proof.
  intros op w. destruct (perform_world op w) as [_ Hinv].
  split; [exact Hinv |].
  rewrite Hinv, length_app. cbn. lia.
Qed.

(** C7.  The identity is fixed at construction: an operation leaves [name],
    [ip] and [port] of the client as they were, on every input and
    outcome; hence after any sequence of operations on a freshly constructed
    client they are still the constructor's arguments. *)
Theorem identity_fixed_at_construction :
  (forall (op : operation) (w : World),
     name (self (snd (perform op w))) = name (self w) /\
     ip (self (snd (perform op w))) = ip (self w) /\
     port (self (snd (perform op w))) = port (self w)) /\
  (forall (remote : CommunicateStub) (n i : string) (p : Z)
          (ops : list operation),
     let w' := perform_all ops (init remote n i p) in
     name (self w') = n /\ ip (self w') = i /\ port (self w') = p).
Proof.
  split.
  - intros op w. destruct (perform_world op w) as [-> _]. tauto.
  - intros remote n i p ops.
    assert (Hself : forall w, self (perform_all ops w) = self w).
    { unfold perform_all. induction ops as [| op ops IH]; intros w; cbn.
      - reflexivity.
      - rewrite IH. apply perform_world. }
    cbv zeta. rewrite Hself. cbn. tauto.
Qed.

(** C8.  An [args] that is not a dictionary is dropped without complaint:
    the request goes out with an empty [args] sequence, and the call
    behaves in every respect (result, invocation, log) as the call with
    the empty dictionary does; in particular it returns when the reply has
    status 200. *)
Theorem non_dict_args_are_dropped :
  forall (op : operation) (w : World) (v : Py.value),
    Py.isinstance_dict v = false ->
    sent_args (request_of (with_args op (Some v))) = [] /\
    invoked (snd (perform (with_args op (Some v)) w)) =
      invoked w ++ [request_of (with_args op (Some v))] /\
    perform (with_args op (Some v)) w =
      perform (with_args op (Some (Py.VDict Py.empty_dict))) w /\
    (forall st,
       substrate w (request_of (with_args op (Some v))) = Responded st ->
       code st = 200%Z ->
       exists out, fst (perform (with_args op (Some v)) w) = Return out).
Proof.
  intros op w v Hv.
  split; [destruct op, v; try discriminate Hv; reflexivity |].
  split; [apply perform_world |].
  split; [destruct op, v; try discriminate Hv; reflexivity |].
  intros st Hreply Hcode.
  exact (perform_accepted_returns _ w st Hreply Hcode).
Qed.

Lemma non_dict_args_are_dropped_witness :
  Py.isinstance_dict (Py.VList [("version", "1")]) = false /\
  sent_args (request_of
               (OpInformCurrent "t1" (Some (Py.VList [("version", "1")]))))
  = [] /\
  perform (OpInformCurrent "t1" (Some (Py.VList [("version", "1")])))
    accepting_world =
  perform (OpInformCurrent "t1" (Some (Py.VDict Py.empty_dict)))
    accepting_world /\
  exists out,
    fst (perform (OpInformCurrent "t1" (Some (Py.VList [("version", "1")])))
           accepting_world) = Return out.
Proof.
  destruct (non_dict_args_are_dropped
              (OpInformCurrent "t1" None) accepting_world
              (Py.VList [("version", "1")]) eq_refl)
    as (Hsent & _ & Hsame & Hreturns).
  split; [reflexivity |].
  split; [exact Hsent |].
  split; [exact Hsame |].
  exact (Hreturns ok eq_refl eq_refl).
Defined.

(** C9.  Leaving [args] out is the same as passing the empty dictionary:
    for every task id the invocation the stub receives is the same in both
    cases, a request whose [args] sequence is empty, and the two calls
    behave alike in result, invocations and log. *)
Theorem omitted_args_is_empty_dict :
  forall (op : operation) (w : World) (t pn pi pp : string),
    request_of (with_args op None) =
      request_of (with_args op (Some (Py.VDict Py.empty_dict))) /\
    sent_args (request_of (with_args op None)) = [] /\
    perform (with_args op None) w =
      perform (with_args op (Some (Py.VDict Py.empty_dict))) w /\
    (exists c,
       invoked (snd (perform (with_args op None) w)) = invoked w ++ [c] /\
       invoked (snd (perform (with_args op (Some (Py.VDict Py.empty_dict)))
                       w)) = invoked w ++ [c] /\
       sent_args c = []) /\
    invoked (snd (inform_previous_service_info t pn pi pp None w)) =
      invoked w ++
      [CallInformPrevious
         {| prev_taskId := t; preServiceName := pn; preServiceIp := pi;
            preServicePort := pp; prev_args := [] |}] /\
    invoked (snd (inform_previous_service_info t pn pi pp
                    (Some (Py.VDict Py.empty_dict)) w)) =
      invoked (snd (inform_previous_service_info t pn pi pp None w)) /\
    invoked (snd (inform_current_service_info t None w)) =
      invoked w ++
      [CallInformCurrent {| cur_taskId := t; cur_args := [] |}] /\
    invoked (snd (inform_current_service_info t
                    (Some (Py.VDict Py.empty_dict)) w)) =
      invoked (snd (inform_current_service_info t None w)).
Proof.
  intros op w t pn pi pp.
  split; [destruct op; reflexivity |].
  split; [destruct op; reflexivity |].
  split; [destruct op; reflexivity |].
  split.
  { exists (request_of (with_args op None)).
    split; [apply perform_world |].
    split; [| destruct op; reflexivity].
    destruct (perform_world
                (with_args op (Some (Py.VDict Py.empty_dict))) w)
      as [_ ->].
    destruct op; reflexivity. }
  pose proof (perform_world (OpInformPrevious t pn pi pp None) w)
    as [_ Hprev].
  pose proof (perform_world
                (OpInformPrevious t pn pi pp
                   (Some (Py.VDict Py.empty_dict))) w) as [_ Hprev'].
  pose proof (perform_world (OpInformCurrent t None) w) as [_ Hcur].
  pose proof (perform_world
                (OpInformCurrent t (Some (Py.VDict Py.empty_dict))) w)
    as [_ Hcur'].
  cbn [perform] in Hprev, Hprev', Hcur, Hcur'.
  rewrite Hprev, Hprev', Hcur, Hcur'.
  repeat split; reflexivity.
Qed.

(** C10.  When a key occurs several times in the [args] sequence of a 200
    reply to inform-current, the returned dictionary gives it the value of
    its last occurrence. *)
Theorem last_pair_wins :
  forall (w : World) (t : string) (a : option Py.value)
         (r : InformCurrentServiceInfoResponse)
         (front back : list Arg) (p : Arg),
    informCurrentServiceInfo (client (self w)) (invoked w)
      {| cur_taskId := t; cur_args := fill_args [] (args_or_default a) |}
    = Responded r ->
    code (cur_response r) = 200%Z ->
    cur_out_args r = front ++ p :: back ->
    (forall q, In q back -> key q <> key p) ->
    exists d,
      fst (inform_current_service_info t a w) = Return (Py.VDict d) /\
      Py.dict_get d (key p) = Some (value p).
Proof.
  intros w t a r front back p Hstub Hcode Hargs Hlast.
  exists (collect_args Py.empty_dict (cur_out_args r)). split.
  - unfold_methods; cbn. rewrite Hstub. cbn.
    apply Z.eqb_eq in Hcode. rewrite Hcode. reflexivity.
  - rewrite dict_get_collect_args, Hargs, last_binding_app. cbn.
    rewrite (last_binding_absent back (key p) Hlast), String.eqb_refl.
    reflexivity.
Qed.

Lemma last_pair_wins_witness :
  exists d,
    fst (inform_current_service_info "t1" None accepting_world)
    = Return (Py.VDict d) /\
    Py.dict_get d "a" = Some "3".
Proof.
  apply (last_pair_wins accepting_world "t1" None
           {| cur_response := ok; cur_out_args := injected |}
           [ {| key := "a"; value := "1" |}; {| key := "b"; value := "2" |} ]
           [] {| key := "a"; value := "3" |}
           eq_refl eq_refl eq_refl).
  intros q [].
Defined.

End ClientProperties.

(* ================================================================== *)
(** ** Further properties: log, outcomes, wire sequence, returned keys *)
(* ================================================================== *)

Section KeyFacts.
Import service_coordinator_pb2 service_coordinator_client.
Local Open Scope list_scope.

Lemma existsb_eqb_In (k : string) (seen : list string) :
  existsb (String.eqb k) seen = true <-> In k seen.
Proof.
  rewrite existsb_exists. split.
  - intros (x & Hin & Heq). apply String.eqb_eq in Heq. now subst x.
  - intros Hin. exists k. split; [exact Hin | apply String.eqb_refl].
Qed.

Lemma keys_setitem (d : Py.dict) (k v : string) :
  map fst (Py.dict_setitem d k v) = remember (map fst d) k.
Proof.
  unfold remember. induction d as [| [k0 v0] d IH]; cbn.
  - reflexivity.
  - rewrite (String.eqb_sym k k0).
    destruct (String.eqb k0 k); cbn; [reflexivity |].
    rewrite IH. destruct (existsb (String.eqb k) (map fst d)); reflexivity.
Qed.

Lemma keys_collect_args (l : list Arg) (acc : Py.dict) :
  map fst (collect_args acc l) =
  fold_left remember (map key l) (map fst acc).
Proof.
  unfold collect_args. revert acc.
  induction l as [| a l IH]; intros acc; cbn; [reflexivity |].
  now rewrite IH, keys_setitem.
Qed.

Lemma remember_NoDup (seen : list string) (k : string) :
  NoDup seen -> NoDup (remember seen k).
Proof.
  intros Hnd. unfold remember.
  destruct (existsb (String.eqb k) seen) eqn:E; [exact Hnd |].
  apply NoDup_app; [exact Hnd | repeat constructor; intros [] |].
  intros x Hx [<- | []].
  apply existsb_eqb_In in Hx. congruence.
Qed.

Lemma fold_remember_NoDup (l seen : list string) :
  NoDup seen -> NoDup (fold_left remember l seen).
Proof.
  revert seen. induction l as [| k l IH]; intros seen Hnd; cbn.
  - exact Hnd.
  - apply IH, remember_NoDup, Hnd.
Qed.

Lemma remember_length (seen : list string) (k : string) :
  length (remember seen k) <= S (length seen).
Proof.
  unfold remember. destruct (existsb (String.eqb k) seen).
  - lia.
  - rewrite length_app. cbn. lia.
Qed.

Lemma fold_remember_length (l seen : list string) :
  length (fold_left remember l seen) <= length seen + length l.
Proof.
  revert seen. induction l as [| k l IH]; intros seen; cbn.
  - lia.
  - specialize (IH (remember seen k)).
    pose proof (remember_length seen k). lia.
Qed.

Lemma last_binding_None (l : list Arg) (k : string) :
  last_binding l k = None <-> ~ In k (map key l).
Proof.
  induction l as [| a l IH]; cbn.
  - tauto.
  - destruct (last_binding l k) as [v |] eqn:E.
    + split; [discriminate |]. intros Hno. exfalso.
      assert (Hsome : Some v <> None) by discriminate.
      apply Hsome. apply IH. tauto.
    + destruct (String.eqb (key a) k) eqn:Ek.
      * apply String.eqb_eq in Ek. split; [discriminate | tauto].
      * apply String.eqb_neq in Ek. split; [| reflexivity].
        intros _ [Hk | Hin]; [exact (Ek Hk) |].
        now apply (proj1 IH).
Qed.

Lemma arg_of_item_of_arg (l : list Arg) :
  map arg_of_item (map item_of_arg l) = l.
Proof.
  induction l as [| [k v] l IH]; cbn; [reflexivity | now rewrite IH].
Qed.

Lemma collected_keys_NoDup (l : list Arg) :
  NoDup (map fst (collect_args Py.empty_dict l)).
Proof.
  rewrite keys_collect_args. apply fold_remember_NoDup. constructor.
Qed.

(** What inform-current returns on a reply with status 200. *)
Lemma inform_current_accepted (w : World) (t : string)
      (a : option Py.value)
      (r : service_coordinator_pb2.InformCurrentServiceInfoResponse) :
  service_coordinator_pb2_grpc.informCurrentServiceInfo
    (client (self w)) (invoked w)
    {| cur_taskId := t; cur_args := fill_args [] (args_or_default a) |}
  = service_coordinator_pb2_grpc.Responded r ->
  code (cur_response r) = 200%Z ->
  fst (inform_current_service_info t a w) =
  Return (Py.VDict (collect_args Py.empty_dict (cur_out_args r))).
Proof.
  intros Hstub Hcode. unfold_methods; cbn. rewrite Hstub. cbn.
  apply Z.eqb_eq in Hcode. now rewrite Hcode.
Qed.

Lemma perform_all_step (ops : list operation) (op : operation) (w : World) :
  perform_all (op :: ops) w = perform_all ops (snd (perform op w)).
Proof. reflexivity. Qed.

(** One call leaves the log alone or appends one record. *)
Lemma log_step (op : operation) (w : World) :
  logged (snd (perform op w)) = logged w \/
  exists record, logged (snd (perform op w)) = logged w ++ [record].
Proof.
  destruct op; unfold_methods; cbn -[String.append];
    case_stub;
    cbn -[String.append];
    repeat match goal with
           | |- context [if ?b then _ else _] =>
               destruct b; cbn -[String.append]
           end;
    first [ left; reflexivity | right; eexists; reflexivity ].
Qed.

End KeyFacts.

Section FurtherProperties.
Import service_coordinator_pb2 service_coordinator_pb2_grpc.
Import service_coordinator_client.
Local Open Scope list_scope.

(** X1.  A success record is logged exactly when the operation returns: a
    returning call appends one record, which carries the task id; a raising
    call (rejected reply, failed transport, any other exception) leaves the
    log as it was. *)
Theorem log_record_iff_returns :
  forall (op : operation) (w : World),
    match fst (perform op w) with
    | Return _ =>
        exists record,
          logged (snd (perform op w)) = logged w ++ [record] /\
          embeds (task_of op) record
    | Raise _ => logged (snd (perform op w)) = logged w
    end.
Proof.
  intros op w.
  destruct op; unfold_methods; cbn -[String.append]; case_stub;
    cbn -[String.append];
    repeat match goal with
           | |- context [if ?b then _ else _] =>
               match type of b with
               | bool => destruct b; cbn -[String.append]
               end
           end;
    try reflexivity;
    (eexists; split; [reflexivity | apply embeds_after, embeds_refl]).
Qed.

(** X2.  An operation returns a value only if the stub replied and the
    reply's status code is 200. *)
Theorem returns_only_on_200 :
  forall (op : operation) (w : World) (v : Py.value),
    fst (perform op w) = Return v ->
    exists st,
      substrate w (request_of op) = Responded st /\ code st = 200%Z.
Proof.
  intros op w v.
  destruct op; unfold substrate, request_of; unfold_methods; cbn;
    case_stub; cbn;
    repeat match goal with
           | |- context [if ?b then _ else _] =>
               match type of b with
               | bool => destruct b eqn:?; cbn
               end
           end;
    intros Hrun; try discriminate Hrun;
    (eexists; split; [reflexivity |]);
    cbn;
    match goal with
    | H : negb (_ =? 200)%Z = false |- _ =>
        apply negb_false_iff, Z.eqb_eq in H; exact H
    end.
Qed.

Lemma returns_only_on_200_witness :
  exists st,
    substrate accepting_world
      (request_of (OpInformPrevious "t1" "A" "10.0.0.1" "9000" None))
    = Responded st /\ code st = 200%Z.
Proof.
  apply (returns_only_on_200
           (OpInformPrevious "t1" "A" "10.0.0.1" "9000" None)
           accepting_world Py.VNone).
  reflexivity.
Defined.

(** X3.  An exception of the stub that is not a [grpc.RpcError] is not
    touched by the [except] clause: the caller receives that very
    exception, the invocation having been made and nothing logged. *)
Theorem foreign_exception_propagates :
  forall (op : operation) (w : World) (e : Py.exn),
    substrate w (request_of op) = Failed e ->
    Py.isinstance_exn e Py.RpcError = false ->
    perform op w =
    (Raise e,
     {| self := self w;
        invoked := invoked w ++ [request_of op];
        logged := logged w |}).
Proof.
  intros op w e Hreply Hcls.
  destruct op; unfold substrate, request_of in Hreply; cbn in Hreply;
    unfold_methods; cbn; case_stub; cbn in *;
    try discriminate Hreply;
    injection Hreply as <-; rewrite Hcls; reflexivity.
Qed.

Lemma foreign_exception_propagates_witness :
  fst (perform (OpStop "t1")
         (init (unreachable_coordinator serialization_error)
               "B" "10.0.0.2" 9001))
  = Raise serialization_error.
Proof.
  rewrite (foreign_exception_propagates
             (OpStop "t1")
             (init (unreachable_coordinator serialization_error)
                   "B" "10.0.0.2" 9001)
             serialization_error eq_refl eq_refl).
  reflexivity.
Defined.

(** X4.  The request of an inform call made with a dictionary carries the
    task id (and the predecessor's name, ip and port) as given, and one
    pair per entry of the dictionary, in the dictionary's order. *)
Theorem request_carries_items_in_order :
  forall (w : World) (t pn pi pp : string) (d : Py.dict),
    invoked (snd (inform_previous_service_info t pn pi pp
                    (Some (Py.VDict d)) w)) =
      invoked w ++
      [CallInformPrevious
         {| prev_taskId := t; preServiceName := pn; preServiceIp := pi;
            preServicePort := pp; prev_args := map arg_of_item d |}] /\
    invoked (snd (inform_current_service_info t (Some (Py.VDict d)) w)) =
      invoked w ++
      [CallInformCurrent
         {| cur_taskId := t; cur_args := map arg_of_item d |}].
Proof.
  intros w t pn pi pp d. split.
  - destruct (perform_world (OpInformPrevious t pn pi pp (Some (Py.VDict d))) w)
      as [_ Hinv].
    cbn [perform] in Hinv. rewrite Hinv. cbn [request_of args_or_default].
    now rewrite fill_args_dict.
  - destruct (perform_world (OpInformCurrent t (Some (Py.VDict d))) w)
      as [_ Hinv].
    cbn [perform] in Hinv. rewrite Hinv. cbn [request_of args_or_default].
    now rewrite fill_args_dict.
Qed.

(** X5.  Over a sequence of calls the stub sees one invocation per call, in
    call order, each with that call's request; a freshly constructed client
    has made none. *)
Theorem invocations_of_a_sequence :
  (forall (ops : list operation) (w : World),
     invoked (perform_all ops w) = invoked w ++ map request_of ops) /\
  (forall (remote : CommunicateStub) (n i : string) (p : Z)
          (ops : list operation),
     invoked (perform_all ops (init remote n i p)) = map request_of ops).
Proof.
  assert (Hgen : forall ops w,
             invoked (perform_all ops w) = invoked w ++ map request_of ops).
  { induction ops as [| op ops IH]; intros w.
    - cbn. now rewrite app_nil_r.
    - rewrite perform_all_step, IH.
      destruct (perform_world op w) as [_ ->].
      cbn [map]. now rewrite <- app_assoc. }
  split; [exact Hgen |].
  intros remote n i p ops. now rewrite Hgen.
Qed.

(** X6.  The log only grows, and by at most one record per call: after a
    sequence of calls it is the old log followed by no more records than
    there were calls. *)
Theorem log_grows_by_at_most_one_per_call :
  forall (ops : list operation) (w : World),
    exists records,
      logged (perform_all ops w) = logged w ++ records /\
      length records <= length ops.
Proof.
  induction ops as [| op ops IH]; intros w.
  - exists []. cbn. now rewrite app_nil_r.
  - rewrite perform_all_step.
    destruct (IH (snd (perform op w))) as (records & Hlog & Hlen).
    pose proof (log_step op w) as Hstep.
    destruct Hstep as [Hsame | (record & Hone)].
    + exists records. rewrite Hlog, Hsame. cbn. split; [reflexivity | lia].
    + exists (record :: records). rewrite Hlog, Hone, <- app_assoc.
      cbn. split; [reflexivity | lia].
Qed.

(** X7.  The channel target and the stub are set by the constructor and
    never replaced: after any sequence of calls the target is still
    [ip:port] of the constructor's arguments and the stub is the one the
    constructor built. *)
Theorem channel_and_stub_fixed :
  forall (remote : CommunicateStub) (n i : string) (p : Z)
         (ops : list operation),
    let w' := perform_all ops (init remote n i p) in
    conn (self w') = (i ++ ":" ++ Py.str_of_int p)%string /\
    client (self w') = remote.
Proof.
  intros remote n i p ops.
  assert (Hself : forall w, self (perform_all ops w) = self w).
  { induction ops as [| op ops IH]; intros w; [reflexivity |].
    rewrite perform_all_step, IH. apply perform_world. }
  cbv zeta. rewrite Hself. split; reflexivity.
Qed.

End FurtherProperties.

Section ReturnedDictionary.
Import service_coordinator_pb2 service_coordinator_pb2_grpc.
Import service_coordinator_client.
Local Open Scope list_scope.

(** X8.  Whatever pairs a 200 reply lists, repeated keys included, the
    dictionary inform-current returns has pairwise distinct keys; they are
    the keys of the reply in the order in which each first occurs, so the
    dictionary has at most as many entries as the reply has pairs. *)
Theorem returned_keys_distinct_in_first_occurrence_order :
  forall (w : World) (t : string) (a : option Py.value)
         (r : InformCurrentServiceInfoResponse),
    informCurrentServiceInfo (client (self w)) (invoked w)
      {| cur_taskId := t; cur_args := fill_args [] (args_or_default a) |}
    = Responded r ->
    code (cur_response r) = 200%Z ->
    exists d,
      fst (inform_current_service_info t a w) = Return (Py.VDict d) /\
      Py.dict_wf d /\
      map fst d = first_occurrences (map key (cur_out_args r)) /\
      length d <= length (cur_out_args r).
Proof.
  intros w t a r Hstub Hcode.
  exists (collect_args Py.empty_dict (cur_out_args r)).
  split; [exact (inform_current_accepted w t a r Hstub Hcode) |].
  split; [apply collected_keys_NoDup |].
  split; [apply keys_collect_args |].
  rewrite <- (length_map fst), keys_collect_args.
  pose proof (fold_remember_length (map key (cur_out_args r))
                (map fst Py.empty_dict)) as Hlen.
  rewrite !length_map in Hlen. exact Hlen.
Qed.

Lemma returned_keys_distinct_in_first_occurrence_order_witness :
  exists d,
    fst (inform_current_service_info "t1" None accepting_world)
    = Return (Py.VDict d) /\
    Py.dict_wf d /\
    map fst d = ["a"; "b"] /\
    length d <= 3.
Proof.
  apply (returned_keys_distinct_in_first_occurrence_order
           accepting_world "t1" None
           {| cur_response := ok; cur_out_args := injected |}
           eq_refl eq_refl).
Defined.

(** X9.  In the dictionary inform-current returns on a 200 reply, a key is
    missing exactly when no pair of the reply has it. *)
Theorem returned_lookup_missing_iff_unlisted :
  forall (w : World) (t : string) (a : option Py.value)
         (r : InformCurrentServiceInfoResponse),
    informCurrentServiceInfo (client (self w)) (invoked w)
      {| cur_taskId := t; cur_args := fill_args [] (args_or_default a) |}
    = Responded r ->
    code (cur_response r) = 200%Z ->
    exists d,
      fst (inform_current_service_info t a w) = Return (Py.VDict d) /\
      forall k,
        Py.dict_get d k = None <-> ~ In k (map key (cur_out_args r)).
Proof.
  intros w t a r Hstub Hcode.
  exists (collect_args Py.empty_dict (cur_out_args r)).
  split; [exact (inform_current_accepted w t a r Hstub Hcode) |].
  intros k. rewrite dict_get_collect_args, <- last_binding_None.
  destruct (last_binding (cur_out_args r) k); cbn; split; auto; discriminate.
Qed.

Lemma returned_lookup_missing_iff_unlisted_witness :
  exists d,
    fst (inform_current_service_info "t1" None accepting_world)
    = Return (Py.VDict d) /\
    forall k, Py.dict_get d k = None <-> ~ In k ["a"; "b"; "a"].
Proof.
  apply (returned_lookup_missing_iff_unlisted
           accepting_world "t1" None
           {| cur_response := ok; cur_out_args := injected |}
           eq_refl eq_refl).
Defined.

(** X10.  Sending back what was received is stable: for any sequence of
    pairs, the dictionary collected from it, written out as request pairs
    and collected again, is the same dictionary. *)
Theorem collect_fill_collect :
  forall l : list Arg,
    collect_args Py.empty_dict
      (fill_args [] (Py.VDict (collect_args Py.empty_dict l)))
    = collect_args Py.empty_dict l.
Proof.
  intros l. rewrite fill_args_dict. cbn [app].
  rewrite collect_args_fresh; [reflexivity |].
  cbn [app]. apply collected_keys_NoDup.
Qed.

(** X11.  A sequence of pairs with pairwise distinct keys is collected
    without loss: the dictionary holds exactly its pairs, in order, and
    writing the dictionary out as request pairs gives the sequence back. *)
Theorem distinct_pairs_collected_verbatim :
  forall l : list Arg,
    NoDup (map key l) ->
    collect_args Py.empty_dict l = map item_of_arg l /\
    fill_args [] (Py.VDict (collect_args Py.empty_dict l)) = l.
Proof.
  intros l Hnd.
  assert (Hcollect : collect_args Py.empty_dict l = map item_of_arg l).
  { rewrite <- (arg_of_item_of_arg l) at 1. unfold arg_of_item.
    rewrite (collect_args_fresh (map item_of_arg l) Py.empty_dict);
      [reflexivity |].
    cbn [app Py.empty_dict]. rewrite map_map. exact Hnd. }
  split; [exact Hcollect |].
  rewrite Hcollect, fill_args_dict. cbn [app].
  apply arg_of_item_of_arg.
Qed.

Lemma distinct_pairs_collected_verbatim_witness :
  collect_args Py.empty_dict
    [ {| key := "a"; value := "1" |}; {| key := "b"; value := "2" |} ]
  = [("a", "1"); ("b", "2")] /\
  fill_args []
    (Py.VDict
       (collect_args Py.empty_dict
          [ {| key := "a"; value := "1" |}; {| key := "b"; value := "2" |} ]))
  = [ {| key := "a"; value := "1" |}; {| key := "b"; value := "2" |} ].
Proof.
  apply (distinct_pairs_collected_verbatim
           [ {| key := "a"; value := "1" |}; {| key := "b"; value := "2" |} ]).
  cbn. repeat constructor; cbn.
  - intros [H | []]. discriminate H.
  - intros [].
Defined.

End ReturnedDictionary.

(* ================================================================== *)
(** ** The model on concrete calls *)
(* ================================================================== *)

Example str_of_int_9001 : Py.str_of_int 9001 = "9001".
Proof. reflexivity. Qed.

Example str_of_int_zero : Py.str_of_int 0 = "0".
Proof. reflexivity. Qed.

Example channel_target : conn (self rejecting_world) = "10.0.0.2:9001".
Proof. reflexivity. Qed.

Example rejected_start_lines :
  fst (perform (OpStart "t1") rejecting_world) =
  Raise (Py.new_Exception
           (Py.join Py.nl
              [ "Failed to start the service";
                "Task ID: t1";
                "Current Service Info:";
                "   name: B";
                "   ip:   10.0.0.2";
                "   port: 9001";
                "Error:";
                "CONFLICT" ])).
Proof. reflexivity. Qed.

Example accepted_inform_current :
  perform (OpInformCurrent "t1" (Some (Py.VDict [("version", "1")])))
    accepting_world =
  (Return (Py.VDict [("a", "3"); ("b", "2")]),
   {| self := self accepting_world;
      invoked :=
        [ service_coordinator_pb2_grpc.CallInformCurrent
            {| service_coordinator_pb2.cur_taskId := "t1";
               service_coordinator_pb2.cur_args :=
                 [ {| service_coordinator_pb2.key := "version";
                      service_coordinator_pb2.value := "1" |} ] |} ];
      logged :=
        [ "Service Coordinator client initialized.";
          "Successfully informed current service info, Task ID: t1" ] |}).
Proof. reflexivity. Qed.
